(** * pyGPs.Core.tools.brentmin: Brent's one-dimensional minimiser

    A shallow embedding of [brentmin] (src/pyGPs/Core/tools.py, lines
    55-206) and the properties of it that the specification states.

    The routine is written once, over an interface [Arith] holding the
    arithmetic the source uses (the float operations, the comparisons,
    [sqrt], [abs], the int-to-float coercion and [sys.float_info.epsilon]).
    Two instances are given:
    - [Float64]: IEEE 754 binary64 (Rocq's primitive floats), the numbers
      Python runs the routine on.  Concrete runs are evaluated there, and
      what depends on the order of the floats alone is proved there.
    - [Exact]: the rationals, exact arithmetic.  What depends on the
      arithmetic itself (where a step lands, how the bracket moves) is
      proved there; rounding and overflow are outside that model.
    What depends on neither (the evaluation count, the tolerance floor,
    determinism) is proved for every instance of [Arith].

    The objective is a Python callable, which may have side effects: it is
    modelled as a function that threads a world [W].  A pure objective
    leaves the world alone; a logging one records the points it is called
    at. *)

From Stdlib Require Import ZArith QArith Qabs Qminmax Lqa Lia List Bool.
From Stdlib Require Import Floats Uint63.
Import ListNotations.

Set Implicit Arguments.
Set Warnings "-inexact-float".

(** ** The arithmetic of the source *)

Declare Scope num_scope.
Delimit Scope num_scope with num.

Class Arith (F : Type) : Type := {
  of_Z : Z -> F;        (* the float of an int: 0., 2.0, 3.0, 5.0, 0, si *)
  half : F;             (* the literal 0.5 *)
  epsilon : F;          (* sys.float_info.epsilon *)
  add : F -> F -> F;
  sub : F -> F -> F;
  mul : F -> F -> F;
  div : F -> F -> F;
  neg : F -> F;
  absf : F -> F;        (* abs *)
  sqrt : F -> F;        (* math.sqrt *)
  ltb : F -> F -> bool;
  leb : F -> F -> bool;
  eqb : F -> F -> bool
}.

Notation "x + y" := (add x y) : num_scope.
Notation "x - y" := (sub x y) : num_scope.
Notation "x * y" := (mul x y) : num_scope.
Notation "x / y" := (div x y) : num_scope.
Notation "- x" := (neg x) : num_scope.
Notation "x <? y" := (ltb x y) : num_scope.
Notation "x <=? y" := (leb x y) : num_scope.
Notation "x >? y" := (ltb y x) : num_scope.
Notation "x >=? y" := (leb y x) : num_scope.
Notation "x =? y" := (eqb x y) : num_scope.

(** The value an objective returns: [vargout[0][0]] and [vargout[1:]]. *)
Definition Vargout (F A : Type) : Type := (F * list A)%type.

(** A callable [f(x, *args)] with the extra arguments fixed; [W] is
    whatever the callable reads and writes besides its argument. *)
Definition Objective (F A W : Type) : Type := F -> W -> Vargout F A * W.

(** A side-effect-free objective. *)
Definition pure_objective {F A W : Type} (g : F -> Vargout F A)
  : Objective F A W := fun x w => (g x, w).

(** A side-effect-free objective, run in a world that records the points it
    is called at, in order. *)
Definition logging {F A : Type} (g : F -> Vargout F A)
  : Objective F A (list F) := fun x log => (g x, log ++ [x]).

(** The local variables of [brentmin] that live across loop iterations. *)
Record State (F A W : Type) : Type := mkState {
  s_a : F; s_b : F;
  s_v : F; s_w : F; s_xf : F;
  s_d : F; s_e : F; s_x : F;
  s_fx : F; s_fv : F; s_fw : F;
  s_xm : F; s_tol1 : F; s_tol2 : F;
  s_funccount : Z;
  s_varargout : list A;
  s_world : W
}.

(** The returned list [[xmin, fmin, funccount] + varargout]. *)
Record Output (F A : Type) : Type := mkOutput {
  xmin : F; fmin : F; funccount : Z; varargout : list A
}.

Section Brentmin.

Context {F : Type} {AF : Arith F} {A W : Type}.

Local Open Scope num_scope.

Notation "0" := (of_Z 0%Z) : num_scope.
Notation "2" := (of_Z 2%Z) : num_scope.
Notation "3" := (of_Z 3%Z) : num_scope.
Notation "5" := (of_Z 5%Z) : num_scope.

(** Python's builtin [max(x, y)]: the first argument unless the second is
    greater. *)
Definition pymax (x y : F) : F := if y >? x then y else x.

(** Python 2's builtin [cmp] on numbers.  (On an unordered pair, a NaN, the
    interpreter's answer is not specified; the last branch is taken.) *)
Definition cmp (x y : F) : Z :=
  if x =? y then 0%Z else if x <? y then (-1)%Z else 1%Z.

(** [si = cmp(t,0); if (t == 0): si += 1], lines 155-156 and 168-169. *)
Definition sign (t : F) : Z :=
  let si := cmp t 0 in
  if t =? 0 then (si + 1)%Z else si.

(** Lines 115-116. *)
Definition seps : F := sqrt epsilon.
Definition c : F := half * (3 - sqrt 5).

(** Line 109. *)
Definition floor_tol (tol : F) : F := pymax tol epsilon.

(** Lines 110-132: the state on entry to the main loop. *)
Definition init (xlow xupp tol : F) (f : Objective F A W) (w0 : W)
  : F * F * State F A W :=
  let tol := floor_tol tol in
  let '(vargout, w1) := f xlow w0 in let fa := fst vargout in
  let '(vargout, w2) := f xupp w1 in let fb := fst vargout in
  let funccount := 2%Z in
  let a := xlow in
  let b := xupp in
  let v := a + c * (b - a) in
  let w := v in
  let xf := v in
  let d := 0 in
  let e := 0 in
  let x := xf in
  let '(vargout, w3) := f x w2 in
  let fx := fst vargout in
  let varargout := snd vargout in
  let funccount := (funccount + 1)%Z in
  let fv := fx in let fw := fx in
  let xm := half * (a + b) in
  let tol1 := seps * absf xf + tol / 3 in
  let tol2 := 2 * tol1 in
  (fa, fb,
   mkState a b v w xf d e x fx fv fw xm tol1 tol2 funccount varargout w3).

(** Line 134: the loop test. *)
Definition loop_cond (s : State F A W) : bool :=
  absf (s_xf s - s_xm s) >? (s_tol2 s - half * (s_b s - s_a s)).

(** Lines 135-166: the step [d] (and [e]) of this iteration, by a parabolic
    fit when one is possible and acceptable, by a golden section otherwise. *)
Definition propose (s : State F A W) : F * F :=
  let a := s_a s in let b := s_b s in
  let v := s_v s in let w := s_w s in let xf := s_xf s in
  let fx := s_fx s in let fv := s_fv s in let fw := s_fw s in
  let xm := s_xm s in let tol1 := s_tol1 s in let tol2 := s_tol2 s in
  let d := s_d s in let e := s_e s in
  let '(gs, d, e) :=
    if absf e >? tol1 then
      let r := (xf - w) * (fx - fv) in
      let q := (xf - v) * (fx - fw) in
      let p := (xf - v) * q - (xf - w) * r in
      let q := 2 * (q - r) in
      let p := if q >? 0 then - p else p in
      let q := absf q in
      let r := e in
      let e := d in
      if (absf p <? absf (half * q * r))
         && (p >? q * (a - xf)) && (p <? q * (b - xf))
      then
        let d := p / q in
        let x := xf + d in
        if ((x - a) <? tol2) || ((b - x) <? tol2)
        then (false, tol1 * of_Z (sign (xm - xf)), e)
        else (false, d, e)
      else (true, d, e)
    else (true, d, e) in
  if gs then
    let e := if xf >=? xm then a - xf else b - xf in
    (c * e, e)
  else (d, e).

(** Lines 140-147, on their own: [p], [q] and [r] of the parabola through
    the three points, as the acceptance test and the quotient [p/q] see
    them. *)
Definition parabola (s : State F A W) : F * F * F :=
  let v := s_v s in let w := s_w s in let xf := s_xf s in
  let fx := s_fx s in let fv := s_fv s in let fw := s_fw s in
  let r := (xf - w) * (fx - fv) in
  let q := (xf - v) * (fx - fw) in
  let p := (xf - v) * q - (xf - w) * r in
  let q := 2 * (q - r) in
  let p := if q >? 0 then - p else p in
  let q := absf q in
  let r := s_e s in
  (p, q, r).

(** Lines 137 and 149: a fit is tried and the parabola is accepted; it is
    then that line 151 forms [p/q]. *)
Definition parabolic (s : State F A W) : bool :=
  let '(p, q, r) := parabola s in
  (absf (s_e s) >? s_tol1 s)
  && ((absf p <? absf (half * q * r))
      && (p >? q * (s_a s - s_xf s)) && (p <? q * (s_b s - s_xf s))).

(** Lines 168-170: the point the objective is evaluated at next. *)
Definition candidate (xf d tol1 : F) : F :=
  xf + of_Z (sign d) * pymax (absf d) tol1.

(** Lines 135-191: one pass through the loop body, up to the budget test. *)
Definition loop_body (tol : F) (f : Objective F A W) (s : State F A W)
  : State F A W :=
  let a := s_a s in let b := s_b s in
  let v := s_v s in let w := s_w s in let xf := s_xf s in
  let fx := s_fx s in let fv := s_fv s in let fw := s_fw s in
  let '(d, e) := propose s in
  let x := candidate xf d (s_tol1 s) in
  let '(vargout, world) := f x (s_world s) in
  let fu := fst vargout in
  let varargout := snd vargout in
  let funccount := (s_funccount s + 1)%Z in
  let '(a, b, v, fv, w, fw, xf, fx) :=
    if fu <=? fx then
      let '(a, b) := if x >=? xf then (xf, b) else (a, xf) in
      (a, b, w, fw, xf, fx, x, fu)
    else
      let '(a, b) := if x <? xf then (x, b) else (a, x) in
      if (fu <=? fw) || (w =? xf) then (a, b, w, fw, x, fu, xf, fx)
      else if (fu <=? fv) || ((v =? xf) || (v =? w))
           then (a, b, x, fu, w, fw, xf, fx)
           else (a, b, v, fv, w, fw, xf, fx) in
  let xm := half * (a + b) in
  let tol1 := seps * absf xf + tol / 3 in
  let tol2 := 2 * tol1 in
  mkState a b v w xf d e x fx fv fw xm tol1 tol2 funccount varargout world.

(** Lines 134-195: the main loop.  [None] when the fuel runs out. *)
Fixpoint main_loop (fuel : nat) (Nitmax : Z) (tol : F) (f : Objective F A W)
  (s : State F A W) : option (State F A W) :=
  match fuel with
  | O => None
  | S fuel' =>
      if loop_cond s then
        let s' := loop_body tol f s in
        if (s_funccount s' >=? Nitmax)%Z then Some s'
        else main_loop fuel' Nitmax tol f s'
      else Some s
  end.

(** Lines 196-206: the endpoints against the point the loop ended on. *)
Definition finish (xlow xupp fa fb : F) (s : State F A W) : Output F A :=
  let '(xf, fx) :=
    if (fa <? s_fx s) && (fa <=? fb) then (xlow, fa)
    else if fb <? s_fx s then (xupp, fb)
    else (s_xf s, s_fx s) in
  mkOutput xf fx (s_funccount s) (s_varargout s).

(** Iterations that the budget allows: the count is 3 on entry, goes up by
    one in each pass, and the loop is left once it has reached [Nitmax]. *)
Definition enough_fuel (Nitmax : Z) : nat := S (Z.to_nat (Nitmax - 4)).

(** The state the loop is left in ([run_loop_enough] below: this fuel never
    runs out and more of it changes nothing, so the last branch is dead). *)
Definition run_loop (Nitmax : Z) (tol : F) (f : Objective F A W)
  (s0 : State F A W) : State F A W :=
  match main_loop (enough_fuel Nitmax) Nitmax tol f s0 with
  | Some s => s
  | None => s0
  end.

(** [brentmin(xlow,xupp,Nitmax,tol,f,nout,*args)]; the extra arguments are
    part of [f]. *)
Definition brentmin (xlow xupp : F) (Nitmax : Z) (tol : F)
  (f : Objective F A W) (nout : option Z) (w0 : W) : Output F A * W :=
  let nout := match nout with None => 0%Z | Some n => n end in
  let '(fa, fb, s0) := init xlow xupp tol f w0 in
  let s := run_loop Nitmax (floor_tol tol) f s0 in
  (finish xlow xupp fa fb s, s_world s).

(** [brentmin] on explicit fuel. *)
Definition brentmin_fuel (fuel : nat) (xlow xupp : F) (Nitmax : Z) (tol : F)
  (f : Objective F A W) (w0 : W) : option (Output F A * W) :=
  let '(fa, fb, s0) := init xlow xupp tol f w0 in
  match main_loop fuel Nitmax (floor_tol tol) f s0 with
  | Some s => Some (finish xlow xupp fa fb s, s_world s)
  | None => None
  end.

(** The states the loop passes through, started in [s0]: [s0] itself, and
    the state after a pass of the body from a state where the test held. *)
Inductive visited (tol : F) (f : Objective F A W) (s0 : State F A W)
  : State F A W -> Prop :=
| visited_entry : visited tol f s0 s0
| visited_pass s :
    visited tol f s0 s -> loop_cond s = true ->
    visited tol f s0 (loop_body tol f s).

(** A state without its world: the local variables alone. *)
Definition locals (s : State F A W) : State F A unit :=
  mkState (s_a s) (s_b s) (s_v s) (s_w s) (s_xf s) (s_d s) (s_e s) (s_x s)
    (s_fx s) (s_fv s) (s_fw s) (s_xm s) (s_tol1 s) (s_tol2 s)
    (s_funccount s) (s_varargout s) tt.

End Brentmin.

(** ** IEEE 754 binary64 *)

Module Float64.

Definition float_of_Z (z : Z) : float :=
  match z with
  | Z0 => PrimFloat.of_uint63 0
  | Zpos _ => PrimFloat.of_uint63 (Uint63.of_Z z)
  | Zneg _ => PrimFloat.opp (PrimFloat.of_uint63 (Uint63.of_Z (- z)))
  end.

#[global] Instance arith : Arith float := {|
  of_Z := float_of_Z;
  half := 0.5%float;
  epsilon := 0x1p-52%float;
  add := PrimFloat.add;
  sub := PrimFloat.sub;
  mul := PrimFloat.mul;
  div := PrimFloat.div;
  neg := PrimFloat.opp;
  absf := PrimFloat.abs;
  sqrt := PrimFloat.sqrt;
  ltb := PrimFloat.ltb;
  leb := PrimFloat.leb;
  eqb := PrimFloat.eqb
|}.

(** A float that is a number: not a NaN. *)
Definition number (x : float) : Prop := PrimFloat.eqb x x = true.

(** f(x) = (x - 2)^2, with x itself as the auxiliary output. *)
Definition quad : float -> Vargout float float :=
  fun x => (PrimFloat.mul (PrimFloat.sub x 2) (PrimFloat.sub x 2), [x]).

(** f(x) = x, with x itself as the auxiliary output. *)
Definition line : float -> Vargout float float :=
  fun x => (x, [x]).

(** f(x) = (x - 2)^2 again, as a callable that also counts its calls. *)
Definition counting_quad : Objective float float nat :=
  fun x n => (quad x, S n).

(** The two as side-effect-free callables. *)
Definition f_quad : Objective float float unit := pure_objective quad.
Definition f_line : Objective float float unit := pure_objective line.

End Float64.

(** ** Exact arithmetic *)

Module Exact.

(** A square root on the rationals: the root of [q], rounded down to a
    multiple of [2^-30 / Qden q]. *)
Definition Qsqrt (q : Q) : Q :=
  Z.sqrt (Qnum q * Z.pos (Qden q) * 2 ^ 60) # (Qden q * 2 ^ 30).

#[global] Instance arith : Arith Q := {|
  of_Z := inject_Z;
  half := 1 # 2;
  epsilon := 1 # 2 ^ 52;
  add := Qplus;
  sub := Qminus;
  mul := Qmult;
  div := Qdiv;
  neg := Qopp;
  absf := Qabs;
  sqrt := Qsqrt;
  ltb := fun x y => negb (Qle_bool y x);
  leb := Qle_bool;
  eqb := Qeq_bool
|}.

(** f(x) = (x - 2)^2, with x itself as the auxiliary output. *)
Definition quad : Q -> Vargout Q Q :=
  fun x => ((x - 2) * (x - 2), [x]).

(** f(x) = x, with x itself as the auxiliary output. *)
Definition line : Q -> Vargout Q Q :=
  fun x => (x, [x]).

(** The first as a side-effect-free callable. *)
Definition f_quad : Objective Q Q unit := pure_objective quad.


End Exact.

(** * Properties *)

Unset Implicit Arguments.

Section BrentminFacts.

Context {F : Type} {AF : Arith F} {A W : Type}.

Implicit Types (f : Objective F A W) (s : State F A W) (w : W).
Implicit Types (xlow xupp tol : F) (Nitmax : Z) (nout : option Z).

Local Open Scope num_scope.

(** The branches of the update of the bracket and of the three points
    (lines 174-189), for the returned [r] and the state [s] of a pass. *)
Ltac update_cases r s :=
  destruct (fst r <=? s_fx s);
  [ destruct (_ >=? s_xf s) eqn:?
  | destruct (_ <? s_xf s) eqn:?;
    destruct ((fst r <=? s_fw s) || (s_w s =? s_xf s));
    try destruct ((fst r <=? s_fv s)
                  || ((s_v s =? s_xf s) || (s_v s =? s_w s))) ].

(** *** The evaluation counter *)

Lemma init_funccount xlow xupp tol f w0 :
  s_funccount (snd (init xlow xupp tol f w0)) = 3%Z.
Proof.
  unfold init.
  destruct (f xlow w0) as [r1 w1], (f xupp w1) as [r2 w2].
  destruct (f _ w2) as [r3 w3]. reflexivity.
Qed.

Lemma loop_body_funccount tol f s :
  s_funccount (loop_body tol f s) = (s_funccount s + 1)%Z.
Proof.
  unfold loop_body.
  destruct (propose s) as [d e].
  destruct (f _ (s_world s)) as [r wd].
  update_cases r s; reflexivity.
Qed.

(** The loop ends within the fuel that the budget leaves. *)
Lemma main_loop_terminates fuel Nitmax tol f s :
  (1 <= fuel)%nat ->
  (Nitmax <= Z.of_nat fuel + s_funccount s)%Z ->
  exists s', main_loop fuel Nitmax tol f s = Some s'.
Proof.
  revert s. induction fuel as [|k IH]; intros s Hpos Hfuel; [lia|].
  simpl. destruct (loop_cond s); [|eauto].
  pose proof (loop_body_funccount tol f s) as Hc.
  rewrite Z.geb_leb.
  destruct (Z.leb_spec Nitmax (s_funccount (loop_body tol f s))); [eauto|].
  apply IH; lia.
Qed.

(** More fuel than needed gives the same final state. *)
Lemma main_loop_more_fuel fuel fuel' Nitmax tol f s s' :
  main_loop fuel Nitmax tol f s = Some s' ->
  (fuel <= fuel')%nat ->
  main_loop fuel' Nitmax tol f s = Some s'.
Proof.
  revert fuel' s.
  induction fuel as [|k IH]; intros fuel' s H Hle; [discriminate|].
  destruct fuel' as [|k']; [lia|].
  simpl in *. destruct (loop_cond s); [|exact H].
  destruct (_ >=? Nitmax)%Z; [exact H|].
  apply IH; [exact H|lia].
Qed.

(** The count at the end of the loop: never below the count on entry, one
    more than it when the budget is already spent on entry and the loop
    test holds, and within the budget otherwise. *)
Lemma main_loop_funccount fuel Nitmax tol f s s' :
  main_loop fuel Nitmax tol f s = Some s' ->
  (s_funccount s <= s_funccount s'
   /\ s_funccount s' <= Z.max Nitmax (s_funccount s + 1))%Z.
Proof.
  revert s. induction fuel as [|k IH]; intros s H; [discriminate|].
  simpl in H. destruct (loop_cond s).
  - pose proof (loop_body_funccount tol f s) as Hc.
    rewrite Z.geb_leb in H.
    destruct (Z.leb_spec Nitmax (s_funccount (loop_body tol f s))).
    + injection H as <-. lia.
    + apply IH in H. lia.
  - injection H as <-. lia.
Qed.

(** [run_loop] is [main_loop] on any fuel from [enough_fuel] up, provided
    the count on entry is at least 3 (it is exactly 3). *)
Lemma run_loop_enough fuel Nitmax tol f s :
  (3 <= s_funccount s)%Z ->
  (enough_fuel Nitmax <= fuel)%nat ->
  main_loop fuel Nitmax tol f s = Some (run_loop Nitmax tol f s).
Proof.
  intros Hc Hle.
  destruct (main_loop_terminates (enough_fuel Nitmax) Nitmax tol f s)
    as [s' Hs']; [unfold enough_fuel; lia | unfold enough_fuel; lia |].
  unfold run_loop. rewrite Hs'.
  exact (main_loop_more_fuel _ _ _ _ _ _ _ Hs' Hle).
Qed.

Lemma run_loop_funccount Nitmax tol f s :
  (3 <= s_funccount s)%Z ->
  (s_funccount s <= s_funccount (run_loop Nitmax tol f s)
   /\ s_funccount (run_loop Nitmax tol f s)
      <= Z.max Nitmax (s_funccount s + 1))%Z.
Proof.
  intros Hc. eapply main_loop_funccount, run_loop_enough; [exact Hc|].
  apply Nat.le_refl.
Qed.

(** Termination: every run on enough fuel ends, with the output of
    [brentmin]. *)
Lemma brentmin_fuel_enough fuel xlow xupp Nitmax tol f nout w0 :
  (enough_fuel Nitmax <= fuel)%nat ->
  brentmin_fuel fuel xlow xupp Nitmax tol f w0
  = Some (brentmin xlow xupp Nitmax tol f nout w0).
Proof.
  intros Hle. unfold brentmin, brentmin_fuel.
  pose proof (init_funccount xlow xupp tol f w0) as Hc.
  destruct (init xlow xupp tol f w0) as [[fa fb] s0]. cbn [snd] in Hc.
  rewrite (run_loop_enough fuel Nitmax (floor_tol tol) f s0);
    [reflexivity | lia | exact Hle].
Qed.

(** [brentmin] in terms of its three phases. *)
Lemma brentmin_unfold xlow xupp Nitmax tol f nout w0 :
  brentmin xlow xupp Nitmax tol f nout w0
  = let i := init xlow xupp tol f w0 in
    let s := run_loop Nitmax (floor_tol tol) f (snd i) in
    (finish xlow xupp (fst (fst i)) (snd (fst i)) s, s_world s).
Proof.
  unfold brentmin.
  destruct (init xlow xupp tol f w0) as [[fa fb] s0]. reflexivity.
Qed.

Lemma finish_funccount xlow xupp fa fb s :
  funccount (finish xlow xupp fa fb s) = s_funccount s.
Proof.
  unfold finish.
  destruct ((fa <? s_fx s) && (fa <=? fb)); [|destruct (fb <? s_fx s)];
    reflexivity.
Qed.

Lemma brentmin_funccount_lower xlow xupp Nitmax tol f nout w0 :
  (3 <= funccount (fst (brentmin xlow xupp Nitmax tol f nout w0)))%Z.
Proof.
  rewrite brentmin_unfold. cbn [fst]. rewrite finish_funccount.
  pose proof (init_funccount xlow xupp tol f w0) as Hc.
  pose proof (run_loop_funccount Nitmax (floor_tol tol) f
                (snd (init xlow xupp tol f w0))) as H.
  lia.
Qed.

(** The budget bounds the count from 4 up; below that the count can reach 4. *)
Lemma brentmin_funccount_le xlow xupp Nitmax tol f nout w0 :
  (funccount (fst (brentmin xlow xupp Nitmax tol f nout w0))
   <= Z.max Nitmax 4)%Z.
Proof.
  rewrite brentmin_unfold. cbn [fst]. rewrite finish_funccount.
  pose proof (init_funccount xlow xupp tol f w0) as Hc.
  pose proof (run_loop_funccount Nitmax (floor_tol tol) f
                (snd (init xlow xupp tol f w0))) as H.
  lia.
Qed.

(** *** The phases, field by field *)

Lemma init_unfold xlow xupp tol f w :
  init xlow xupp tol f w
  = let r1 := f xlow w in
    let r2 := f xupp (snd r1) in
    let v := xlow + c * (xupp - xlow) in
    let r3 := f v (snd r2) in
    let tol1 := seps * absf v + floor_tol tol / of_Z 3 in
    (fst (fst r1), fst (fst r2),
     mkState xlow xupp v v v (of_Z 0) (of_Z 0) v
       (fst (fst r3)) (fst (fst r3)) (fst (fst r3))
       (half * (xlow + xupp)) tol1 (of_Z 2 * tol1) 3%Z
       (snd (fst r3)) (snd r3)).
Proof.
  unfold init.
  destruct (f xlow w) as [r1 w1]. cbn [fst snd].
  destruct (f xupp w1) as [r2 w2]. cbn [fst snd].
  destruct (f _ w2) as [r3 w3]. reflexivity.
Qed.

(** The pass evaluates the objective at [candidate], keeps that point in
    [x] and keeps what the objective returned besides the value. *)
Lemma loop_body_evaluation tol f s :
  let x := candidate (s_xf s) (fst (propose s)) (s_tol1 s) in
  s_x (loop_body tol f s) = x
  /\ s_varargout (loop_body tol f s) = snd (fst (f x (s_world s)))
  /\ s_world (loop_body tol f s) = snd (f x (s_world s)).
Proof.
  unfold loop_body.
  destruct (propose s) as [d e]. cbn [fst].
  destruct (f _ (s_world s)) as [r wd]. cbn [fst snd].
  update_cases r s; repeat split.
Qed.


Lemma visited_run_loop Nitmax tol f s0 :
  (3 <= s_funccount s0)%Z ->
  visited tol f s0 (run_loop Nitmax tol f s0).
Proof.
  intros Hc.
  pose proof (run_loop_enough _ Nitmax tol f s0 Hc (Nat.le_refl _)) as H.
  revert H. generalize (run_loop Nitmax tol f s0) as s'.
  generalize (enough_fuel Nitmax) as fuel. intros fuel s'.
  assert (forall s, visited tol f s0 s ->
            main_loop fuel Nitmax tol f s = Some s' -> visited tol f s0 s')
    as Hgen; [|apply Hgen; constructor].
  induction fuel as [|k IH]; intros s Hv H; [discriminate|].
  cbn [main_loop] in H. destruct (loop_cond s) eqn:E.
  - destruct (_ >=? Nitmax)%Z.
    + injection H as <-. constructor; assumption.
    + eapply IH; [|exact H]. constructor; assumption.
  - injection H as <-. exact Hv.
Qed.


(** *** The tolerance floor *)

Lemma floor_tol_below tol :
  (tol <? epsilon) = true -> floor_tol tol = epsilon.
Proof. unfold floor_tol, pymax. intros ->. reflexivity. Qed.

Lemma floor_tol_epsilon : floor_tol epsilon = epsilon.
Proof.
  unfold floor_tol, pymax. destruct (epsilon >? epsilon); reflexivity.
Qed.

(** The tolerance reaches the computation through [floor_tol] alone. *)
Lemma brentmin_floor_tol xlow xupp Nitmax tol tol' f nout w :
  floor_tol tol = floor_tol tol' ->
  brentmin xlow xupp Nitmax tol f nout w
  = brentmin xlow xupp Nitmax tol' f nout w.
Proof. unfold brentmin, init. intros ->. reflexivity. Qed.

(** C5: a tolerance below machine epsilon is raised to it before use:
    whatever the other arguments, [brentmin] called with a tolerance
    [tol < epsilon] returns what it returns when called with [epsilon]
    (the tolerance 0 is such a [tol], see the instances below). *)
Theorem brentmin_tol_below_epsilon xlow xupp Nitmax tol f nout w :
  (tol <? epsilon) = true ->
  brentmin xlow xupp Nitmax tol f nout w
  = brentmin xlow xupp Nitmax epsilon f nout w.
Proof.
  intros Hlt. apply brentmin_floor_tol.
  rewrite floor_tol_epsilon. exact (floor_tol_below _ Hlt).
Qed.

(** *** Determinism *)

Lemma locals_fields s s' :
  locals s = locals s' ->
  s' = mkState (s_a s) (s_b s) (s_v s) (s_w s) (s_xf s) (s_d s) (s_e s)
         (s_x s) (s_fx s) (s_fv s) (s_fw s) (s_xm s) (s_tol1 s) (s_tol2 s)
         (s_funccount s) (s_varargout s) (s_world s').
Proof.
  destruct s, s'. unfold locals. cbn. intros H.
  injection H as -> -> -> -> -> -> -> -> -> -> -> -> -> -> -> ->.
  reflexivity.
Qed.

Lemma loop_cond_locals s s' :
  locals s = locals s' -> loop_cond s = loop_cond s'.
Proof. intros H. rewrite (locals_fields _ _ H). reflexivity. Qed.

Lemma propose_locals s s' : locals s = locals s' -> propose s = propose s'.
Proof. intros H. rewrite (locals_fields _ _ H). reflexivity. Qed.

Lemma finish_locals xlow xupp fa fb s s' :
  locals s = locals s' -> finish xlow xupp fa fb s = finish xlow xupp fa fb s'.
Proof. intros H. rewrite (locals_fields _ _ H). reflexivity. Qed.

Section Pure.

(** What the objective returns does not depend on the world it runs in. *)
Variable f : Objective F A W.
Hypothesis f_pure : forall x w w', fst (f x w) = fst (f x w').

Lemma init_pure xlow xupp tol w w' :
  fst (init xlow xupp tol f w) = fst (init xlow xupp tol f w')
  /\ locals (snd (init xlow xupp tol f w))
     = locals (snd (init xlow xupp tol f w')).
Proof.
  unfold init.
  pose proof (f_pure xlow w w') as H1.
  destruct (f xlow w) as [r1 w1], (f xlow w') as [r1' w1'].
  pose proof (f_pure xupp w1 w1') as H2.
  destruct (f xupp w1) as [r2 w2], (f xupp w1') as [r2' w2'].
  pose proof (f_pure (xlow + c * (xupp - xlow)) w2 w2') as H3.
  destruct (f _ w2) as [r3 w3], (f _ w2') as [r3' w3'].
  cbn [fst snd] in *. subst. split; reflexivity.
Qed.

Lemma loop_body_pure tol s s' :
  locals s = locals s' ->
  locals (loop_body tol f s) = locals (loop_body tol f s').
Proof.
  intros H. unfold loop_body.
  rewrite <- (propose_locals _ _ H).
  rewrite (locals_fields _ _ H).
  cbn [s_a s_b s_v s_w s_xf s_fx s_fv s_fw s_tol1 s_funccount s_world].
  destruct (propose s) as [d e].
  pose proof (f_pure (candidate (s_xf s) d (s_tol1 s))
                (s_world s) (s_world s')) as Hf.
  destruct (f _ (s_world s)) as [r wd], (f _ (s_world s')) as [r' wd'].
  cbn [fst] in Hf. subst r'.
  update_cases r s; reflexivity.
Qed.

Lemma main_loop_pure fuel Nitmax tol s s' :
  locals s = locals s' ->
  option_map locals (main_loop fuel Nitmax tol f s)
  = option_map locals (main_loop fuel Nitmax tol f s').
Proof.
  revert s s'. induction fuel as [|k IH]; intros s s' H; [reflexivity|].
  cbn [main_loop]. rewrite <- (loop_cond_locals _ _ H).
  destruct (loop_cond s); [|cbn; f_equal; exact H].
  pose proof (loop_body_pure tol _ _ H) as Hb.
  replace (s_funccount (loop_body tol f s'))
    with (s_funccount (loop_body tol f s))
    by (rewrite !loop_body_funccount, (locals_fields _ _ H); reflexivity).
  destruct (_ >=? Nitmax)%Z; [cbn; f_equal; exact Hb|].
  apply IH, Hb.
Qed.

Lemma run_loop_pure Nitmax tol s s' :
  locals s = locals s' ->
  locals (run_loop Nitmax tol f s) = locals (run_loop Nitmax tol f s').
Proof.
  intros H. unfold run_loop.
  pose proof (main_loop_pure (enough_fuel Nitmax) Nitmax tol _ _ H) as Hm.
  destruct (main_loop _ _ _ _ s), (main_loop _ _ _ _ s');
    cbn [option_map] in Hm; try discriminate;
    [|exact H].
  exact (f_equal (fun o => match o with Some l => l | None => locals s0 end)
           Hm).
Qed.

(** C9: [brentmin] is deterministic.  The objective is a callable that may
    read and write a world; when what it returns depends on its argument
    alone (it is pure), two calls of [brentmin] with the same [xlow],
    [xupp], [Nitmax], [tol], [f] and [nout], made in whatever two worlds,
    return the same sequence. *)
Theorem brentmin_deterministic xlow xupp Nitmax tol nout w w' :
  fst (brentmin xlow xupp Nitmax tol f nout w)
  = fst (brentmin xlow xupp Nitmax tol f nout w').
Proof.
  rewrite !brentmin_unfold. cbn [fst].
  destruct (init_pure xlow xupp tol w w') as [Hv Hs].
  rewrite <- Hv. apply finish_locals, run_loop_pure, Hs.
Qed.

End Pure.

End BrentminFacts.

(** ** The evaluations made *)

Section Logging.

Context {F : Type} {AF : Arith F} {A : Type}.

Local Open Scope num_scope.

Section Run.

Variable g : F -> Vargout F A.
Variables xlow xupp tol : F.

Let s0 := snd (init xlow xupp tol (logging g) []).

(** In a state the loop passes through: the evaluations so far are as many
    as [funccount] says, they begin with [xlow], [xupp] and the start point,
    and [varargout] is what the objective returned at the last of them. *)
Lemma visited_log (s : State F A (list F)) :
  visited (floor_tol tol) (logging g) s0 s ->
  Z.of_nat (length (s_world s)) = s_funccount s
  /\ firstn 3 (s_world s) = [xlow; xupp; xlow + c * (xupp - xlow)]
  /\ s_varargout s = snd (g (last (s_world s) xlow)).
Proof.
  intros Hv. induction Hv as [|s Hv (Hn & Hf & Ha) Hc].
  - unfold s0. rewrite init_unfold. cbv zeta. cbn [snd]. repeat split.
  - destruct (loop_body_evaluation (floor_tol tol) (logging g) s)
      as (Hx & Hv' & Hw). cbv zeta in *.
    rewrite Hw, Hv', loop_body_funccount, <- Hn. unfold logging. cbn [fst snd].
    rewrite length_app, last_last, firstn_app, Hf. cbn [length].
    replace (3 - length (s_world s))%nat with 0%nat
      by (pose proof (f_equal (@length F) Hf) as Hl;
          rewrite length_firstn in Hl; cbn [length] in Hl; lia).
    split; [lia | split; reflexivity].
Qed.

(** The count returned is the number of evaluations made; the first three
    are at [xlow], [xupp] and the start point; the auxiliary outputs
    returned are those of the last one. *)
Lemma brentmin_log Nitmax nout :
  let r := brentmin xlow xupp Nitmax tol (logging g) nout [] in
  Z.of_nat (length (snd r)) = funccount (fst r)
  /\ firstn 3 (snd r) = [xlow; xupp; xlow + c * (xupp - xlow)]
  /\ varargout (fst r) = snd (g (last (snd r) xlow)).
Proof.
  cbv zeta. rewrite brentmin_unfold. cbv zeta. cbn [fst snd].
  rewrite finish_funccount.
  pose proof (visited_log _ (visited_run_loop Nitmax (floor_tol tol)
    (logging g) s0 ltac:(unfold s0; rewrite init_funccount; lia))) as H.
  fold s0.
  replace (varargout (finish _ _ _ _ _))
    with (s_varargout (run_loop Nitmax (floor_tol tol) (logging g) s0));
    [exact H|].
  unfold finish.
  destruct (_ && _); [|destruct (_ <? _)]; reflexivity.
Qed.

End Run.

(** C10: whatever the arguments, and also with [Nitmax] below 3, the
    returned evaluation count is at least 3; the count is the number of
    evaluations made, and the first three of them are at [xlow], at [xupp]
    and at the golden-section start point. *)
Theorem brentmin_funccount_ge_3 :
  (forall (W : Type) xlow xupp Nitmax tol (f : Objective F A W) nout w,
     (3 <= funccount (fst (brentmin xlow xupp Nitmax tol f nout w)))%Z)
  /\ (forall xlow xupp Nitmax tol (g : F -> Vargout F A) nout,
       let r := brentmin xlow xupp Nitmax tol (logging g) nout [] in
       Z.of_nat (length (snd r)) = funccount (fst r)
       /\ firstn 3 (snd r) = [xlow; xupp; xlow + c * (xupp - xlow)]).
Proof.
  split; intros.
  - apply brentmin_funccount_lower.
  - destruct (brentmin_log g xlow xupp tol Nitmax nout) as (H1 & H2 & _).
    split; assumption.
Qed.

End Logging.


(** ** In exact arithmetic *)

Section ExactFacts.

Context {A W : Type}.

Implicit Types (f : Objective Q A W) (s : State Q A W) (w : W).

Local Open Scope Q_scope.

Ltac exact_ops :=
  cbn [of_Z half epsilon add sub mul div neg absf sqrt ltb leb eqb
       Exact.arith] in *.

Lemma ltb_reflect (x y : Q) : reflect (x < y) (ltb x y).
Proof.
  exact_ops. destruct (Qle_bool y x) eqn:E; constructor.
  - apply Qle_bool_iff in E. lra.
  - apply Qnot_le_lt. intros H. apply Qle_bool_iff in H. congruence.
Qed.

Lemma leb_reflect (x y : Q) : reflect (x <= y) (leb x y).
Proof.
  exact_ops. destruct (Qle_bool x y) eqn:E; constructor.
  - apply Qle_bool_iff, E.
  - intros H. apply Qle_bool_iff in H. congruence.
Qed.

Lemma eqb_reflect (x y : Q) : reflect (x == y) (eqb x y).
Proof.
  exact_ops. destruct (Qeq_bool x y) eqn:E; constructor.
  - apply Qeq_bool_iff, E.
  - intros H. apply Qeq_bool_iff in H. congruence.
Qed.






(** *** The sign helper *)

Lemma sign_pos (t : Q) : 0 < t -> sign t = 1%Z.
Proof.
  unfold sign, cmp. change (of_Z 0%Z) with 0.
  destruct (eqb_reflect t 0), (ltb_reflect t 0); intros; try reflexivity; lra.
Qed.

Lemma sign_neg (t : Q) : t < 0 -> sign t = (-1)%Z.
Proof.
  unfold sign, cmp. change (of_Z 0%Z) with 0.
  destruct (eqb_reflect t 0), (ltb_reflect t 0); intros; try reflexivity; lra.
Qed.

Lemma sign_zero (t : Q) : t == 0 -> sign t = 1%Z.
Proof.
  unfold sign, cmp. change (of_Z 0%Z) with 0.
  destruct (eqb_reflect t 0); intros; [reflexivity | tauto].
Qed.

(** *** The minimum step *)



(** *** The check of the endpoints *)

Lemma finish_cases (xlow xupp fa fb : Q) s :
  let out := finish xlow xupp fa fb s in
  (fa < s_fx s /\ fa <= fb -> xmin out = xlow /\ fmin out = fa)
  /\ (~ (fa < s_fx s /\ fa <= fb) -> fb < s_fx s ->
      xmin out = xupp /\ fmin out = fb)
  /\ (~ (fa < s_fx s /\ fa <= fb) -> ~ fb < s_fx s ->
      xmin out = s_xf s /\ fmin out = s_fx s).
Proof.
  unfold finish.
  destruct (ltb_reflect fa (s_fx s)), (leb_reflect fa fb),
    (ltb_reflect fb (s_fx s)); cbn; repeat split; tauto.
Qed.

Lemma finish_least (xlow xupp fa fb : Q) s :
  let out := finish xlow xupp fa fb s in
  fmin out <= fa /\ fmin out <= fb /\ fmin out <= s_fx s
  /\ fmin out == Qmin fa (Qmin fb (s_fx s)).
Proof.
  unfold finish.
  destruct (ltb_reflect fa (s_fx s)), (leb_reflect fa fb),
    (ltb_reflect fb (s_fx s)); cbn;
    repeat split; try lra;
    destruct (Q.min_spec fb (s_fx s)) as [[? ?]|[? ?]],
      (Q.min_spec fa (Qmin fb (s_fx s))) as [[? ?]|[? ?]]; lra.
Qed.

(** The check in a run on a pure objective. *)
Lemma endpoints_checked_exact xlow xupp Nitmax tol
  (g : Q -> Vargout Q A) nout w :
  let f : Objective Q A W := pure_objective g in
  let fa := fst (g xlow) in
  let fb := fst (g xupp) in
  let s := run_loop Nitmax (floor_tol tol) f (snd (init xlow xupp tol f w)) in
  let out := fst (brentmin xlow xupp Nitmax tol f nout w) in
  (fa < s_fx s /\ fa <= fb -> xmin out = xlow /\ fmin out = fa)
  /\ (~ (fa < s_fx s /\ fa <= fb) -> fb < s_fx s ->
      xmin out = xupp /\ fmin out = fb)
  /\ fmin out <= fa /\ fmin out <= fb /\ fmin out <= s_fx s
  /\ fmin out == Qmin fa (Qmin fb (s_fx s)).
Proof.
  cbv zeta. rewrite brentmin_unfold. cbv zeta. cbn [fst].
  rewrite init_unfold. cbv zeta. cbn [fst snd pure_objective].
  match goal with |- context [finish _ _ _ _ ?s] => set (sf := s) end.
  pose proof (finish_cases xlow xupp (fst (g xlow)) (fst (g xupp)) sf)
    as (H1 & H2 & _).
  pose proof (finish_least xlow xupp (fst (g xlow)) (fst (g xupp)) sf)
    as (H3 & H4 & H5 & H6).
  repeat split; tauto.
Qed.

(** *** The degenerate interval *)


(** *** The bracket *)










End ExactFacts.

(** ** In binary64 *)

Section Binary64Facts.

Context {A W : Type}.

Implicit Types (f : Objective float A W) (s : State float A W) (w : W).

Local Open Scope float_scope.

(** The order of binary64, from its specification [SFcompare]. *)
Ltac sf_order :=
  unfold SFleb, SFltb, SFeqb, SFcompare;
  repeat match goal with
         | x : spec_float |- _ => destruct x as [[|]|[|]| |[|] ? ?]
         end;
  try reflexivity; try discriminate;
  rewrite ?Pos.compare_cont_spec; cbn [Pos.switch_Eq CompOpp];
  repeat match goal with
         | |- context [(?x ?= ?y)%Z] => destruct (Z.compare_spec x y)
         end; try lia; try reflexivity; try discriminate;
  repeat match goal with
         | |- context [(?x ?= ?y)%positive] => destruct (Pos.compare_spec x y)
         end; cbn; try lia; try reflexivity; try discriminate.

Lemma SFleb_trans (x y z : spec_float) :
  SFleb x y = true -> SFleb y z = true -> SFleb x z = true.
Proof. sf_order. Qed.

Lemma SFleb_refl (x : spec_float) : SFeqb x x = true -> SFleb x x = true.
Proof. sf_order. Qed.

Lemma SFltb_leb (x y : spec_float) : SFltb x y = true -> SFleb x y = true.
Proof. sf_order. Qed.

Lemma SFleb_total (x y : spec_float) :
  SFeqb x x = true -> SFeqb y y = true ->
  SFleb x y = false -> SFleb y x = true.
Proof. sf_order. Qed.

Lemma SFnltb_leb (x y : spec_float) :
  SFeqb x x = true -> SFeqb y y = true ->
  SFltb x y = false -> SFleb y x = true.
Proof. sf_order. Qed.

Ltac to_spec :=
  unfold Float64.number;
  rewrite ?FloatAxioms.ltb_spec, ?FloatAxioms.leb_spec, ?FloatAxioms.eqb_spec.

Lemma leb_trans (x y z : float) :
  (x <=? y) = true -> (y <=? z) = true -> (x <=? z) = true.
Proof. to_spec. apply SFleb_trans. Qed.

Lemma leb_refl (x : float) : Float64.number x -> (x <=? x) = true.
Proof. to_spec. apply SFleb_refl. Qed.

Lemma ltb_leb (x y : float) : (x <? y) = true -> (x <=? y) = true.
Proof. to_spec. apply SFltb_leb. Qed.

Lemma leb_total (x y : float) :
  Float64.number x -> Float64.number y ->
  (x <=? y) = false -> (y <=? x) = true.
Proof. to_spec. apply SFleb_total. Qed.

Lemma nltb_leb (x y : float) :
  Float64.number x -> Float64.number y ->
  (x <? y) = false -> (y <=? x) = true.
Proof. to_spec. apply SFnltb_leb. Qed.

(** The sign helper on binary64: 0.0 and -0.0 are the zeros; a NaN is
    neither positive, negative nor zero. *)
Lemma sign_binary64 (t : float) :
  ((0 <? t) = true -> sign t = 1%Z)
  /\ ((t <? 0) = true -> sign t = (-1)%Z)
  /\ ((t =? 0) = true -> sign t = 1%Z).
Proof.
  unfold sign, cmp. change (of_Z 0%Z) with 0.
  cbn [ltb eqb Float64.arith]. to_spec.
  change (Prim2SF 0) with (S754_zero false).
  destruct (Prim2SF t) as [sg|sg| |sg m e]; try destruct sg; cbn;
    repeat split; intros; congruence.
Qed.

Lemma finish_cases_binary64 (xlow xupp fa fb : float) s :
  let out := finish xlow xupp fa fb s in
  ((fa <? s_fx s) = true /\ (fa <=? fb) = true ->
   xmin out = xlow /\ fmin out = fa)
  /\ (~ ((fa <? s_fx s) = true /\ (fa <=? fb) = true) ->
      (fb <? s_fx s) = true ->
      xmin out = xupp /\ fmin out = fb).
Proof.
  unfold finish. cbn [ltb leb Float64.arith].
  destruct (fa <? s_fx s), (fa <=? fb), (fb <? s_fx s); cbn;
    repeat split; intros; try reflexivity; try discriminate;
    try tauto; repeat match goal with H : _ /\ _ |- _ => destruct H end;
    discriminate.
Qed.

Lemma finish_least_binary64 (xlow xupp fa fb : float) s :
  Float64.number fa -> Float64.number fb -> Float64.number (s_fx s) ->
  let out := finish xlow xupp fa fb s in
  (fmin out <=? fa) = true /\ (fmin out <=? fb) = true
  /\ (fmin out <=? s_fx s) = true
  /\ (fmin out = fa \/ fmin out = fb \/ fmin out = s_fx s).
Proof.
  intros Na Nb Nx. unfold finish. cbn [ltb leb Float64.arith].
  destruct (fa <? s_fx s) eqn:E1; [destruct (fa <=? fb) eqn:E2|];
    cbn [andb]; [|destruct (fb <? s_fx s) eqn:E3 ..]; cbn [fmin].
  - auto 10 using leb_refl, ltb_leb.
  - pose proof (leb_total _ _ Na Nb E2).
    auto 10 using leb_refl, ltb_leb.
  - pose proof (leb_total _ _ Na Nb E2) as Hba.
    pose proof (nltb_leb _ _ Nb Nx E3) as Hxb.
    pose proof (leb_trans _ _ _ Hxb Hba).
    auto 10 using leb_refl.
  - pose proof (nltb_leb _ _ Na Nx E1) as Hxa.
    pose proof (leb_trans _ _ _ (ltb_leb _ _ E3) Hxa).
    auto 10 using leb_refl, ltb_leb.
  - pose proof (nltb_leb _ _ Na Nx E1).
    pose proof (nltb_leb _ _ Nb Nx E3).
    auto 10 using leb_refl.
Qed.

(** The check in a run on a pure objective. *)
Lemma endpoints_checked_binary64 xlow xupp Nitmax tol
  (g : float -> Vargout float A) nout w :
  let f : Objective float A W := pure_objective g in
  let fa := fst (g xlow) in
  let fb := fst (g xupp) in
  let s := run_loop Nitmax (floor_tol tol) f (snd (init xlow xupp tol f w)) in
  let out := fst (brentmin xlow xupp Nitmax tol f nout w) in
  ((fa <? s_fx s) = true /\ (fa <=? fb) = true ->
   xmin out = xlow /\ fmin out = fa)
  /\ (~ ((fa <? s_fx s) = true /\ (fa <=? fb) = true) ->
      (fb <? s_fx s) = true ->
      xmin out = xupp /\ fmin out = fb)
  /\ (Float64.number fa -> Float64.number fb -> Float64.number (s_fx s) ->
      (fmin out <=? fa) = true /\ (fmin out <=? fb) = true
      /\ (fmin out <=? s_fx s) = true
      /\ (fmin out = fa \/ fmin out = fb \/ fmin out = s_fx s)).
Proof.
  cbv zeta. rewrite brentmin_unfold. cbv zeta. cbn [fst].
  rewrite init_unfold. cbv zeta. cbn [fst snd pure_objective].
  match goal with |- context [finish _ _ _ _ ?s] => set (sf := s) end.
  pose proof (finish_cases_binary64 xlow xupp (fst (g xlow)) (fst (g xupp)) sf)
    as (H1 & H2).
  pose proof (finish_least_binary64 xlow xupp (fst (g xlow)) (fst (g xupp)) sf)
    as H3.
  repeat split; try tauto; intros; apply H3; assumption.
Qed.


End Binary64Facts.

(** ** The claims that hold in both arithmetics *)

Section BothArithmetics.

Context {A W : Type}.

(** C8: the sign that gives a step its direction is +1 on a positive
    argument, -1 on a negative one and +1, not 0, on zero, in binary64 and
    in exact arithmetic alike.  It is what [candidate] applies to [d], so
    that a step [d == 0] becomes a step of [tol1] to the right, and what
    [propose] applies to [xm - xf] in the adjustment near an endpoint
    ([tol1 * sign (xm - xf)]), which is [tol1], to the right, at
    [xm == xf]. *)
Theorem sign_resolution :
  (forall t : float,
     (PrimFloat.ltb 0 t = true -> sign t = 1%Z)
     /\ (PrimFloat.ltb t 0 = true -> sign t = (-1)%Z)
     /\ (PrimFloat.eqb t 0 = true -> sign t = 1%Z))
  /\ (forall t : Q,
       (0 < t -> sign t = 1%Z)
       /\ (t < 0 -> sign t = (-1)%Z)
       /\ (t == 0 -> sign t = 1%Z)
       /\ (t == 0 -> forall xf tol1 : Q,
             0 < tol1 -> candidate xf t tol1 == xf + tol1)
       /\ (t == 0 -> forall tol1 : Q,
             (tol1 * of_Z (sign t))%num == tol1)).
Proof.
  split; [exact sign_binary64|].
  intros t.
  split; [apply sign_pos|]. split; [apply sign_neg|].
  split; [apply sign_zero|]. split.
  - intros Ht xf tol1 Hpos. unfold candidate, pymax.
    rewrite (sign_zero t Ht). change (of_Z 1%Z) with 1.
    destruct (ltb_reflect (absf t) tol1) as [H|H]; revert H;
      cbn [add mul absf Exact.arith]; rewrite (Qabs_pos t) by lra;
      intros H; lra.
  - intros Ht tol1. rewrite (sign_zero t Ht). change (of_Z 1%Z) with 1.
    cbn [mul Exact.arith]. ring.
Qed.

(** C4: for a pure objective [g], with [fa] and [fb] its values at [xlow]
    and [xupp] and [fx] the value at the point the loop ended on: when
    [fa < fx] and [fa <= fb] the routine returns [(xlow, fa)]; otherwise,
    when [fb < fx], it returns [(xupp, fb)]; the returned [fmin] is at most
    [fa], [fb] and [fx], and is one of them: it is their minimum.  In
    binary64 (for values that are numbers, not NaN) and in exact
    arithmetic alike. *)
Theorem endpoints_checked :
  (forall (xlow xupp : float) (Nitmax : Z) (tol : float)
          (g : float -> Vargout float A) (nout : option Z) (w : W),
     let f : Objective float A W := pure_objective g in
     let fa := fst (g xlow) in
     let fb := fst (g xupp) in
     let s :=
       run_loop Nitmax (floor_tol tol) f (snd (init xlow xupp tol f w)) in
     let out := fst (brentmin xlow xupp Nitmax tol f nout w) in
     let lt x y := PrimFloat.ltb x y = true in
     let le x y := PrimFloat.leb x y = true in
     (lt fa (s_fx s) /\ le fa fb -> xmin out = xlow /\ fmin out = fa)
     /\ (~ (lt fa (s_fx s) /\ le fa fb) -> lt fb (s_fx s) ->
         xmin out = xupp /\ fmin out = fb)
     /\ (Float64.number fa -> Float64.number fb ->
         Float64.number (s_fx s) ->
         le (fmin out) fa /\ le (fmin out) fb /\ le (fmin out) (s_fx s)
         /\ (fmin out = fa \/ fmin out = fb \/ fmin out = s_fx s)))
  /\ (forall (xlow xupp : Q) (Nitmax : Z) (tol : Q)
            (g : Q -> Vargout Q A) (nout : option Z) (w : W),
       let f : Objective Q A W := pure_objective g in
       let fa := fst (g xlow) in
       let fb := fst (g xupp) in
       let s :=
         run_loop Nitmax (floor_tol tol) f (snd (init xlow xupp tol f w)) in
       let out := fst (brentmin xlow xupp Nitmax tol f nout w) in
       (fa < s_fx s /\ fa <= fb -> xmin out = xlow /\ fmin out = fa)
       /\ (~ (fa < s_fx s /\ fa <= fb) -> fb < s_fx s ->
           xmin out = xupp /\ fmin out = fb)
       /\ fmin out <= fa /\ fmin out <= fb /\ fmin out <= s_fx s
       /\ fmin out == Qmin fa (Qmin fb (s_fx s))).
Proof.
  split; intros.
  - apply endpoints_checked_binary64.
  - apply endpoints_checked_exact.
Qed.


End BothArithmetics.

(** * Runs *)

(** ** In binary64 *)

Section Binary64Runs.

Local Open Scope float_scope.

Lemma float_neq (x y : float) :
  PrimFloat.eqb x x = true -> PrimFloat.eqb x y = false -> x <> y.
Proof. intros Hx Hxy E. rewrite <- E, Hx in Hxy. discriminate. Qed.

Lemma singleton_neq {T : Type} (x y : T) : x <> y -> [x] <> [y].
Proof. intros H E. injection E as E. exact (H E). Qed.

Ltac differ :=
  match goal with
  | |- ?l <> ?r =>
      let l' := eval vm_compute in l in
      let r' := eval vm_compute in r in
      change (l' <> r'); apply singleton_neq, float_neq; reflexivity
  end.

(** C1 fails on the code: with a budget of 3 evaluations, on
    f(x) = (x-2)^2 over [0, 5], the loop test holds on entry, the body runs
    once, and only then is the budget looked at: 4 evaluations are made and
    reported.  (With a budget of 1 likewise.) *)
Theorem budget_of_3_spends_4 :
  let f := Float64.f_quad in
  funccount (fst (brentmin 0 5 3 0.0009765625 f None tt)) = 4%Z
  /\ funccount (fst (brentmin 0 5 1 0.0009765625 f None tt)) = 4%Z.
Proof. split; vm_compute; reflexivity. Qed.

(** C2 fails on the code: the auxiliary outputs returned are those of the
    last evaluation made, whether or not that point is the one returned.
    On f(x) = x over [0, 1] with tolerance 8 the loop is not entered,
    [xlow = 0] wins the endpoint check, and the auxiliary output returned
    is that of the start point 0.38...; on f(x) = (x-2)^2 over [0, 5] the
    search ends on [xmin = 2] and returns the auxiliary output of its last,
    rejected, trial point 1.99999997. *)
Theorem auxiliary_of_last_evaluation :
  (let out := fst (brentmin 0 1 100 8 Float64.f_line None tt) in
   xmin out = 0 /\ funccount out = 3%Z
   /\ varargout out = [0.3819660112501051]
   /\ snd (Float64.line (xmin out)) = [0]
   /\ varargout out <> snd (Float64.line (xmin out)))
  /\ (let out := fst (brentmin 0 5 100 0 Float64.f_quad None tt) in
      xmin out = 2 /\ funccount out = 8%Z
      /\ varargout out = [1.9999999701976776]
      /\ snd (Float64.quad (xmin out)) = [2]
      /\ varargout out <> snd (Float64.quad (xmin out))).
Proof.
  split; cbv zeta; repeat split; try (vm_compute; reflexivity); differ.
Qed.



(** The tolerance 0 is below machine epsilon, and gives the run that the
    tolerance [epsilon] gives. *)
Lemma brentmin_tol_below_epsilon_witness :
  let f := Float64.f_quad in
  PrimFloat.ltb 0 epsilon = true
  /\ brentmin 0 5 100 0 f None tt = brentmin 0 5 100 epsilon f None tt.
Proof.
  split; [reflexivity | apply brentmin_tol_below_epsilon; reflexivity].
Defined.

(** An objective that counts its calls returns the same values in every
    world; the runs started in the worlds 0 and 7 return the same. *)
Lemma brentmin_deterministic_witness :
  fst (brentmin 0 5 100 0 Float64.counting_quad None 0%nat)
  = fst (brentmin 0 5 100 0 Float64.counting_quad None 7%nat).
Proof.
  apply brentmin_deterministic. intros x w w'. reflexivity.
Defined.

Lemma sign_resolution_witness :
  (sign 2 = 1%Z /\ sign (-2) = (-1)%Z /\ sign (-0) = 1%Z)
  /\ (sign 2%Q = 1%Z /\ sign (- (2))%Q = (-1)%Z /\ sign 0%Q = 1%Z
      /\ (candidate 5 0 (1 # 4) == 5 + (1 # 4))%Q).
Proof.
  split; [split; [|split] | split; [|split; [|split]]].
  - apply (proj1 (proj1 sign_resolution 2)). reflexivity.
  - apply (proj1 (proj2 (proj1 sign_resolution (-2)))). reflexivity.
  - apply (proj2 (proj2 (proj1 sign_resolution (-0)))). reflexivity.
  - apply (proj1 (proj2 sign_resolution 2%Q)). reflexivity.
  - apply (proj1 (proj2 (proj2 sign_resolution (- (2))%Q))). reflexivity.
  - apply (proj1 (proj2 (proj2 (proj2 sign_resolution 0%Q)))). reflexivity.
  - apply (proj1 (proj2 (proj2 (proj2 (proj2 sign_resolution 0%Q)))));
      reflexivity.
Defined.

End Binary64Runs.

(** ** In exact arithmetic *)

Section ExactRuns.

Local Open Scope Q_scope.

(** f(x) = x over [0, 1], tolerance 8: the loop is not entered and [xlow]
    wins the check, in binary64 and in exact arithmetic. *)
Lemma endpoints_checked_witness :
  (let out := fst (brentmin 0%float 1%float 3 8%float
                      (pure_objective Float64.line) None tt) in
   xmin out = 0%float /\ fmin out = 0%float)
  /\ (let out := fst (brentmin 0 1 3 8 (pure_objective Exact.line) None tt) in
      xmin out = 0 /\ fmin out = 0).
Proof.
  split.
  - refine (proj1 (proj1 (@endpoints_checked float unit) 0%float 1%float 3%Z
                     8%float Float64.line None tt) _).
    split; vm_compute; reflexivity.
  - refine (proj1 (proj2 (@endpoints_checked Q unit) 0 1 3%Z 8 Exact.line
                     None tt) _).
    split; vm_compute; [reflexivity | discriminate].
Defined.


End ExactRuns.

(** * More of [brentmin] *)

(** ** For every arithmetic *)

Section Budget.

Context {F : Type} {AF : Arith F} {A W : Type}.

Implicit Types (f : Objective F A W) (s : State F A W) (w : W).
Implicit Types (xlow xupp tol : F) (Nitmax : Z) (nout : option Z).

Local Open Scope num_scope.



(** X1: From a budget of 4 evaluations up, the budget is kept: the returned
    count never exceeds [Nitmax]. *)
Theorem budget_kept_from_4 xlow xupp Nitmax tol f nout w :
  (4 <= Nitmax)%Z ->
  (funccount (fst (brentmin xlow xupp Nitmax tol f nout w)) <= Nitmax)%Z.
Proof.
  intros H4.
  pose proof (brentmin_funccount_le xlow xupp Nitmax tol f nout w). lia.
Qed.

Lemma run_loop_small_budget Nitmax tol f s0 :
  s_funccount s0 = 3%Z -> (Nitmax <= 4)%Z ->
  run_loop Nitmax tol f s0 = run_loop 4 tol f s0.
Proof.
  intros Hc Hle. unfold run_loop, enough_fuel.
  replace (Z.to_nat (Nitmax - 4)) with 0%nat by lia.
  cbn [Z.sub Z.add Z.opp Z.pos_sub Z.to_nat main_loop].
  destruct (loop_cond s0); [|reflexivity].
  rewrite loop_body_funccount, Hc.
  replace (3 + 1 >=? Nitmax)%Z with true by (symmetry; rewrite Z.geb_leb; lia).
  reflexivity.
Qed.

(** X2: A budget below 4 is a budget of 4: whatever [Nitmax <= 4] is given
    (zero and negative ones too), the routine returns what it returns
    for [Nitmax = 4]. *)
Theorem budget_below_4_is_4 xlow xupp Nitmax tol f nout w :
  (Nitmax <= 4)%Z ->
  brentmin xlow xupp Nitmax tol f nout w = brentmin xlow xupp 4 tol f nout w.
Proof.
  intros Hle. rewrite !brentmin_unfold. cbv zeta.
  rewrite (run_loop_small_budget Nitmax); [reflexivity | | exact Hle].
  apply init_funccount.
Qed.



End Budget.

Section Values.

Context {F : Type} {AF : Arith F} {A W : Type}.

Local Open Scope num_scope.

(** The best point and the two other points of the fit after a pass: each
    is the trial point [x] with the value [fu] found there, or one of the
    three points of before, with its value. *)
Lemma loop_body_points tol (f : Objective F A W) (s : State F A W) :
  let x := candidate (s_xf s) (fst (propose s)) (s_tol1 s) in
  let fu := fst (fst (f x (s_world s))) in
  let s' := loop_body tol f s in
  ((s_xf s', s_fx s') = (x, fu) /\ (fu <=? s_fx s) = true
   \/ (s_xf s', s_fx s') = (s_xf s, s_fx s) /\ (fu <=? s_fx s) = false)
  /\ ((s_w s', s_fw s') = (x, fu) \/ (s_w s', s_fw s') = (s_xf s, s_fx s)
      \/ (s_w s', s_fw s') = (s_w s, s_fw s))
  /\ ((s_v s', s_fv s') = (x, fu) \/ (s_v s', s_fv s') = (s_w s, s_fw s)
      \/ (s_v s', s_fv s') = (s_v s, s_fv s)).
Proof.
  unfold loop_body.
  destruct (propose s) as [d e]. cbn [fst].
  destruct (f _ (s_world s)) as [r wd]. cbn [fst].
  destruct (fst r <=? s_fx s);
    [ destruct (_ >=? s_xf s)
    | destruct (_ <? s_xf s);
      destruct ((fst r <=? s_fw s) || (s_w s =? s_xf s));
      try destruct ((fst r <=? s_fv s)
                    || ((s_v s =? s_xf s) || (s_v s =? s_w s))) ];
    cbn; auto 10.
Qed.

Section Valued.

(** An objective whose value at a point is the same in every world. *)
Variable g : F -> F.
Variable f : Objective F A W.
Hypothesis f_g : forall x w, fst (fst (f x w)) = g x.

Variables xlow xupp tol : F.
Variable w0 : W.

(** In every state of the loop the three values kept are the values of
    the objective at the three points kept. *)
Lemma visited_values s :
  visited (floor_tol tol) f (snd (init xlow xupp tol f w0)) s ->
  s_fx s = g (s_xf s) /\ s_fw s = g (s_w s) /\ s_fv s = g (s_v s).
Proof.
  induction 1 as [|s Hv (Hx & Hw & Hv') Hc].
  - rewrite init_unfold. cbv zeta. cbn [snd s_fx s_fw s_fv s_xf s_w s_v].
    rewrite f_g. auto.
  - destruct (loop_body_points (floor_tol tol) f s) as (Px & Pw & Pv).
    cbv zeta in *. rewrite f_g in *.
    repeat split.
    + destruct Px as [[E _]|[E _]]; injection E as -> ->; auto.
    + destruct Pw as [E|[E|E]]; injection E as -> ->; auto.
    + destruct Pv as [E|[E|E]]; injection E as -> ->; auto.
Qed.

(** X4: The value returned is the value of the objective at the point
    returned: [fmin = f(xmin)], whichever of [xlow], [xupp] and the point
    of the loop is returned. *)
Theorem fmin_is_value_at_xmin Nitmax nout :
  let out := fst (brentmin xlow xupp Nitmax tol f nout w0) in
  fmin out = g (xmin out).
Proof.
  cbv zeta. rewrite brentmin_unfold. cbv zeta. cbn [fst].
  pose proof (visited_values _ (visited_run_loop Nitmax (floor_tol tol) f
    (snd (init xlow xupp tol f w0))
    ltac:(rewrite init_funccount; lia))) as (Hx & _).
  revert Hx. generalize (run_loop Nitmax (floor_tol tol) f
                           (snd (init xlow xupp tol f w0))) as s.
  intros s Hx. rewrite init_unfold. cbv zeta. cbn [fst snd].
  unfold finish. rewrite !f_g.
  destruct (_ && _); [reflexivity|].
  destruct (_ <? _); [reflexivity|]. exact Hx.
Qed.

End Valued.

(** X6: With a logging objective: the auxiliary outputs returned are those the
    objective produced at the last point it was evaluated at. *)
Theorem varargout_of_last_evaluation (g : F -> Vargout F A)
  xlow xupp Nitmax tol nout :
  let r := brentmin xlow xupp Nitmax tol (logging g) nout [] in
  varargout (fst r) = snd (g (last (snd r) xlow)).
Proof.
  destruct (brentmin_log g xlow xupp tol Nitmax nout) as (_ & _ & H).
  exact H.
Qed.

End Values.

(** ** In exact arithmetic *)

Section ExactInterval.

Context {A W : Type}.

Implicit Types (f : Objective Q A W) (s : State Q A W) (w : W).

Local Open Scope Q_scope.




End ExactInterval.

Section ExactEvaluations.

Context {A : Type}.

Local Open Scope Q_scope.

Variable g : Q -> Vargout Q A.
Variables xlow xupp tol : Q.


(** In every such state the least of [fa], [fb] and [fx] is at most the
    value of the objective at each point evaluated. *)
Lemma visited_least (s : State Q A (list Q)) :
  visited (floor_tol tol) (logging g)
    (snd (init xlow xupp tol (logging g) [])) s ->
  Forall (fun x => Qmin (fst (g xlow)) (Qmin (fst (g xupp)) (s_fx s))
                   <= fst (g x)) (s_world s).
Proof.
  intros Hv. induction Hv as [|s Hv IH Hc].
  - rewrite init_unfold. cbv zeta. cbn [snd s_world s_fx logging fst app].
    repeat apply Forall_cons; try apply Forall_nil.
    + apply Q.le_min_l.
    + eapply Qle_trans; [apply Q.le_min_r | apply Q.le_min_l].
    + eapply Qle_trans; [apply Q.le_min_r | apply Q.le_min_r].
  - destruct (loop_body_evaluation (floor_tol tol) (logging g) s)
      as (_ & _ & Hw).
    destruct (loop_body_points (floor_tol tol) (logging g) s) as (Px & _).
    cbv zeta in *. set (x := candidate _ _ _) in *.
    rewrite Hw. cbn [logging fst snd] in *.
    assert (s_fx (loop_body (floor_tol tol) (logging g) s) <= s_fx s
            /\ s_fx (loop_body (floor_tol tol) (logging g) s) <= fst (g x))
      as [Hfx Hfu].
    { destruct Px as [[E Hb']|[E Hb']]; injection E as _ ->; revert Hb'.
      - destruct (leb_reflect (fst (g x)) (s_fx s));
          [intros _; lra | discriminate].
      - destruct (leb_reflect (fst (g x)) (s_fx s));
          [discriminate | intros _; lra]. }
    apply Forall_app. split.
    + eapply Forall_impl; [|exact IH]. cbv beta. intros y Hy.
      eapply Qle_trans; [|exact Hy].
      apply Q.min_le_compat_l, Q.min_le_compat_l, Hfx.
    + repeat constructor.
      eapply Qle_trans; [apply Q.le_min_r|].
      eapply Qle_trans; [apply Q.le_min_r|]. exact Hfu.
Qed.


(** The value returned is at most the value of the objective at every
    point it was evaluated at. *)
Lemma fmin_least_exact Nitmax nout :
  let r := brentmin xlow xupp Nitmax tol (logging g) nout [] in
  Forall (fun x => fmin (fst r) <= fst (g x)) (snd r).
Proof.
  cbv zeta. rewrite brentmin_unfold. cbv zeta. cbn [fst snd].
  pose proof (visited_least _
    (visited_run_loop Nitmax (floor_tol tol) (logging g) _
       ltac:(rewrite init_funccount; lia))) as H.
  eapply Forall_impl; [|exact H]. cbv beta. intros y Hy.
  eapply Qle_trans; [|exact Hy].
  rewrite init_unfold. cbv zeta. cbn [fst snd logging].
  match goal with |- context [finish _ _ _ _ ?s] => set (sf := s) end.
  destruct (finish_least xlow xupp (fst (g xlow)) (fst (g xupp)) sf)
    as (_ & _ & _ & E).
  cbv zeta in E. rewrite E. apply Qle_refl.
Qed.

End ExactEvaluations.

(** ** The best of the points evaluated, in binary64 *)

Section Binary64Evaluations.

Context {A : Type}.

Local Open Scope float_scope.

Variable g : float -> Vargout float A.
Variables xlow xupp tol : float.

(** In every state of the loop, of a run that logs its evaluations, when
    the values found so far are numbers: [fx] is one of them and is at
    most the value at each point evaluated after the two endpoints. *)
Lemma visited_least_binary64 (s : State float A (list float)) :
  visited (floor_tol tol) (logging g)
    (snd (init xlow xupp tol (logging g) [])) s ->
  Forall (fun x => Float64.number (fst (g x))) (s_world s) ->
  Float64.number (s_fx s)
  /\ Forall (fun x => (s_fx s <=? fst (g x)) = true) (skipn 2 (s_world s)).
Proof.
  intros Hv. induction Hv as [|s Hv IH Hc].
  - rewrite init_unfold. cbv zeta.
    cbn [snd s_world s_fx logging fst app skipn].
    intros Hn. apply Forall_inv_tail, Forall_inv_tail, Forall_inv in Hn.
    split; [exact Hn|]. repeat constructor. exact (leb_refl _ Hn).
  - destruct (loop_body_evaluation (floor_tol tol) (logging g) s)
      as (_ & _ & Hw).
    destruct (loop_body_points (floor_tol tol) (logging g) s) as (Px & _).
    pose proof (visited_log g xlow xupp tol s Hv) as (_ & Hf & _).
    cbv zeta in *. set (x := candidate _ _ _) in *.
    rewrite Hw. cbn [logging fst snd] in *.
    intros Hn. apply Forall_app in Hn as [Hn Hx]. apply Forall_inv in Hx.
    destruct (IH Hn) as [Nfx IH'].
    assert (skipn 2 (s_world s ++ [x]) = skipn 2 (s_world s) ++ [x]) as ->.
    { destruct (s_world s) as [|a0 [|a1 l]]; try discriminate. reflexivity. }
    destruct Px as [[E Hb]|[E Hb]]; apply (f_equal snd) in E;
      cbn [snd] in E; rewrite E; cbn [leb Float64.arith] in Hb.
    + split; [exact Hx|]. apply Forall_app. split.
      * eapply Forall_impl; [|exact IH']. cbv beta. intros y Hy.
        exact (leb_trans _ _ _ Hb Hy).
      * repeat constructor. apply leb_refl, Hx.
    + split; [exact Nfx|]. apply Forall_app. split; [exact IH'|].
      repeat constructor. apply leb_total; assumption.
Qed.

Lemma fmin_least_binary64 Nitmax nout :
  let r := brentmin xlow xupp Nitmax tol (logging g) nout [] in
  Forall (fun x => Float64.number (fst (g x))) (snd r) ->
  Forall (fun x => (fmin (fst r) <=? fst (g x)) = true) (snd r).
Proof.
  cbv zeta. rewrite brentmin_unfold. cbv zeta. cbn [fst snd].
  assert (3 <= s_funccount (snd (init xlow xupp tol (logging g) [])))%Z
    as Hc by (rewrite init_funccount; lia).
  pose proof (visited_run_loop Nitmax (floor_tol tol) (logging g) _ Hc)
    as Hv.
  pose proof (visited_log g xlow xupp tol _ Hv) as (_ & Hf & _).
  pose proof (visited_least_binary64 _ Hv) as H.
  revert Hf H.
  generalize (run_loop Nitmax (floor_tol tol) (logging g)
                (snd (init xlow xupp tol (logging g) []))) as s.
  intros s Hf H Hn. destruct (H Hn) as [Nfx Hl]. clear H.
  rewrite init_unfold. cbv zeta. cbn [fst snd logging].
  destruct (s_world s) as [|a0 [|a1 l]]; try discriminate.
  cbn [firstn skipn] in Hf, Hl.
  assert (a0 = xlow /\ a1 = xupp) as [-> ->]
    by (destruct l; [discriminate | injection Hf as -> -> _; auto]).
  pose proof (Forall_inv Hn) as Na.
  pose proof (Forall_inv (Forall_inv_tail Hn)) as Nb.
  cbv beta in Na, Nb.
  destruct (finish_least_binary64 xlow xupp (fst (g xlow)) (fst (g xupp)) s
              Na Nb Nfx) as (Ha & Hb & Hx & _).
  cbv zeta in *.
  repeat apply Forall_cons; [exact Ha | exact Hb |].
  eapply Forall_impl; [|exact Hl]. cbv beta. intros y Hy.
  exact (leb_trans _ _ _ Hx Hy).
Qed.

End Binary64Evaluations.

(** X5: The value returned is the least the run has seen: [fmin] is at most
    the value of the objective at every point it was evaluated at; in
    binary64 when the values found are numbers (no NaN), and in exact
    arithmetic. *)
Theorem fmin_least_of_evaluations {A : Type} :
  (forall (g : float -> Vargout float A) (xlow xupp : float) (Nitmax : Z)
          (tol : float) (nout : option Z),
     let r := brentmin xlow xupp Nitmax tol (logging g) nout [] in
     Forall (fun x => Float64.number (fst (g x))) (snd r) ->
     Forall (fun x => PrimFloat.leb (fmin (fst r)) (fst (g x)) = true)
       (snd r))
  /\ (forall (g : Q -> Vargout Q A) (xlow xupp : Q) (Nitmax : Z) (tol : Q)
            (nout : option Z),
       let r := brentmin xlow xupp Nitmax tol (logging g) nout [] in
       Forall (fun x => (fmin (fst r) <= fst (g x))%Q) (snd r)).
Proof.
  split; intros.
  - apply fmin_least_binary64. assumption.
  - apply fmin_least_exact.
Qed.

(** ** The quotient of the parabolic step *)

Section Quotient.

Context {F : Type} {AF : Arith F} {A W : Type}.

Local Open Scope num_scope.

(** [propose] in terms of [parabola] and [parabolic]: the quotient [p/q]
    is formed in the states where [parabolic] holds, and only there. *)
Lemma propose_parabolic (s : State F A W) :
  fst (propose s)
  = if parabolic s then
      let '(p, q, _) := parabola s in
      let d := p / q in
      if ((s_xf s + d - s_a s) <? s_tol2 s)
         || ((s_b s - (s_xf s + d)) <? s_tol2 s)
      then s_tol1 s * of_Z (sign (s_xm s - s_xf s))
      else d
    else
      c * (if s_xf s >=? s_xm s then s_a s - s_xf s else s_b s - s_xf s).
Proof.
  unfold propose, parabolic, parabola.
  destruct (absf (s_e s) >? s_tol1 s); cbn [andb]; [|reflexivity].
  destruct ((_ <? _) && _ && _); [|reflexivity].
  destruct (_ || _); reflexivity.
Qed.

(** The acceptance test in exact arithmetic, for a divisor [q = |q0|]. *)
Lemma accepted_exact (p q0 r lo hi : Q) :
  let q := absf q0 in
  (absf p <? absf (half * q * r)) && (p >? q * lo) && (p <? q * hi) = true ->
  (0 < q /\ lo < p / q /\ p / q < hi)%Q.
Proof.
  cbv zeta. intros H.
  apply andb_prop in H as [H H3]. apply andb_prop in H as [H1 H2].
  revert H1 H2 H3.
  destruct (ltb_reflect (absf p) (absf (half * absf q0 * r))) as [H1|];
    [|discriminate].
  destruct (ltb_reflect (absf q0 * lo)%num p) as [H2|];
    [|intros _; discriminate].
  destruct (ltb_reflect p (absf q0 * hi)%num) as [H3|];
    [|intros _ _; discriminate].
  intros _ _ _. revert H1 H2 H3.
  cbn [mul div absf half Exact.arith]. intros H1 H2 H3.
  pose proof (Qabs_nonneg q0) as Hq0. pose proof (Qabs_nonneg p) as Hp.
  assert (0 < Qabs q0)%Q as Hq.
  { destruct (Qle_lt_or_eq _ _ Hq0) as [|E]; [assumption|exfalso].
    rewrite <- E in H1.
    assert ((1 # 2) * 0 * r == 0)%Q as E0 by ring.
    rewrite E0 in H1. cbn [Qabs Z.abs Qnum Qden] in H1. lra. }
  split; [exact Hq|]. split.
  - apply Qlt_shift_div_l; [exact Hq|]. rewrite Qmult_comm. exact H2.
  - apply Qlt_shift_div_r; [exact Hq|]. rewrite Qmult_comm. exact H3.
Qed.

(** In exact arithmetic the divisor is positive, and the step [p/q] leads
    to a point strictly inside the bracket. *)
Lemma parabolic_exact (s : State Q A W) :
  parabolic s = true ->
  let '(p, q, _) := parabola s in
  (0 < q /\ s_a s < s_xf s + p / q /\ s_xf s + p / q < s_b s)%Q.
Proof.
  unfold parabolic, parabola. cbv zeta.
  intros H. apply andb_prop in H as [_ H].
  apply accepted_exact in H. cbv zeta in H.
  destruct H as (Hq & Hlo & Hhi).
  revert Hlo Hhi. cbn [sub Exact.arith]. intros Hlo Hhi.
  split; [exact Hq|]. split; lra.
Qed.

(** In binary64 a divisor that is zero fails the first part of the test:
    [0.5*q*r] is then a zero or a NaN, and no [|p|] is below that. *)
Lemma accepted_binary64 (p q r : float) :
  PrimFloat.ltb (PrimFloat.abs p)
    (PrimFloat.abs (PrimFloat.mul (PrimFloat.mul 0.5 q) r)) = true ->
  PrimFloat.eqb q 0 = false.
Proof.
  rewrite FloatAxioms.ltb_spec, FloatAxioms.eqb_spec,
    !FloatAxioms.abs_spec, !FloatAxioms.mul_spec.
  change (Prim2SF 0) with (S754_zero false).
  change (Prim2SF 0.5) with (S754_finite false 4503599627370496 (-53)).
  destruct (Prim2SF q) as [sq|sq| |sq mq eq]; try reflexivity;
    try (destruct sq; reflexivity).
  unfold SF64mul. cbn [SFmul xorb].
  destruct (Prim2SF r) as [sr|sr| |sr mr er]; cbn [SFmul SFabs];
    destruct (Prim2SF p) as [sp|sp| |sp mp ep]; try destruct sp; cbn;
    discriminate.
Qed.

Lemma parabolic_binary64 (s : State float A W) :
  parabolic s = true ->
  let '(_, q, _) := parabola s in PrimFloat.eqb q 0 = false.
Proof.
  unfold parabolic, parabola. cbv zeta.
  intros H. apply andb_prop in H as [_ H].
  apply andb_prop in H as [H _]. apply andb_prop in H as [H _].
  revert H. apply accepted_binary64.
Qed.

(** X10: The quotient [p/q] of line 151 is never formed with a zero divisor:
    where the fit is tried and the parabola accepted, [q] is not zero in
    binary64, and in exact arithmetic [q > 0] and the point [xf + p/q] lies
    strictly inside the bracket. *)
Theorem quotient_divisor_not_zero :
  (forall s : State float A W,
     parabolic s = true ->
     let '(_, q, _) := parabola s in PrimFloat.eqb q 0 = false)
  /\ (forall s : State Q A W,
       parabolic s = true ->
       let '(p, q, _) := parabola s in
       (0 < q /\ s_a s < s_xf s + p / q /\ s_xf s + p / q < s_b s)%Q).
Proof. split; [exact parabolic_binary64 | exact parabolic_exact]. Qed.

End Quotient.

(** ** A larger budget *)

Section LargerBudget.

Context {A W : Type}.

Implicit Types (f : Objective Q A W) (s : State Q A W) (w : W).

Local Open Scope Q_scope.



End LargerBudget.

(** ** Runs *)

Section MoreRuns.

(** f(x) = (x-2)^2 over [0, 5] in binary64, with a budget of 5. *)
Lemma budget_kept_from_4_witness :
  (4 <= 5)%Z
  /\ (funccount (fst (brentmin 0%float 5%float 5 0%float
                        Float64.f_quad None tt)) <= 5)%Z.
Proof.
  split; [lia | apply budget_kept_from_4; lia].
Defined.

(** The same with a budget of 1, which gives the run of the budget 4. *)
Lemma budget_below_4_is_4_witness :
  (1 <= 4)%Z
  /\ brentmin 0%float 5%float 1 0%float Float64.f_quad None tt
     = brentmin 0%float 5%float 4 0%float Float64.f_quad None tt.
Proof.
  split; [lia | apply budget_below_4_is_4; lia].
Defined.

(** The callable that counts its calls has the value (x-2)^2 at x in
    every world. *)
Lemma fmin_is_value_at_xmin_witness :
  let g x := PrimFloat.mul (PrimFloat.sub x 2) (PrimFloat.sub x 2) in
  let out := fst (brentmin 0%float 5%float 100 0%float
                    Float64.counting_quad None 0%nat) in
  fmin out = g (xmin out).
Proof.
  apply (fmin_is_value_at_xmin
           (fun x => PrimFloat.mul (PrimFloat.sub x 2) (PrimFloat.sub x 2))
           Float64.counting_quad).
  intros x w. reflexivity.
Defined.

(** The states after two passes of the run on f(x) = (x-2)^2 over [0, 5],
    in binary64 and in exact arithmetic: the third pass is parabolic. *)
Lemma quotient_divisor_not_zero_witness :
  (let s := Nat.iter 2 (loop_body (floor_tol 0%float) Float64.f_quad)
              (snd (init 0%float 5%float 0%float Float64.f_quad tt)) in
   let '(_, q, _) := parabola s in PrimFloat.eqb q 0 = false)
  /\ (let s := Nat.iter 2 (loop_body (floor_tol 1) Exact.f_quad)
                 (snd (init 0 5 1 Exact.f_quad tt)) in
      let '(p, q, _) := parabola s in
      0 < q /\ s_a s < s_xf s + p / q /\ s_xf s + p / q < s_b s)%Q.
Proof.
  split.
  - apply (proj1 (@quotient_divisor_not_zero float unit)).
    vm_compute. reflexivity.
  - apply (proj2 (@quotient_divisor_not_zero Q unit)).
    vm_compute. reflexivity.
Defined.

(** The run on f(x) = (x-2)^2 over [0, 5] in binary64: the eight values
    found are numbers. *)
Lemma fmin_least_of_evaluations_witness :
  let r := brentmin 0%float 5%float 100 0%float
             (logging Float64.quad) None [] in
  Forall (fun x => PrimFloat.leb (fmin (fst r)) (fst (Float64.quad x)) = true)
    (snd r).
Proof.
  apply (proj1 (@fmin_least_of_evaluations float)).
  vm_compute. repeat constructor.
Defined.

Local Open Scope Q_scope.





End MoreRuns.
